(** * TrenchyBet points listener: ledger and aggregate reconciliation

    A shallow embedding of the two listener scripts of the repository:

    - the polling listener (the file with the banner "TRENCHYBET POINTS -
      EVENT LISTENER"), embedded in [Module Polling];
    - the subscription listener [src/index.js], embedded in [Module Watch].

    Both talk to two external collaborators: the Supabase store (tables
    [users] and [points_ledger]) and the chain client (block number and logs).
    The store is modelled as explicit state, every request to a collaborator
    is recorded in a request trace, and every request draws its outcome from
    a schedule of faults, so that the [try]/[catch] structure of the scripts
    has something to catch.

    Numbers.  A JavaScript [Number] is an IEEE 754 binary64 value, computed
    with the Standard Library's [SpecFloat]; [BigInt] values decoded from
    [uint256] fields are [N]; the integers of the store ([points_earned],
    [total_points]) are [Z].  The [last_bet_timestamp] column (wall-clock
    time) is left out. *)

From Stdlib Require Import ZArith NArith QArith Qround String Ascii List Lia.
From Stdlib Require Import SpecFloat.
From stdpp Require Import gmap strings.
Import ListNotations.

Local Open Scope Z_scope.

(** ** JavaScript values *)

(** [String.prototype.toLowerCase] on the ASCII range, which is all a
    hexadecimal address uses. *)
Definition lower_ascii (c : ascii) : ascii :=
  let n := N_of_ascii c in
  if ((65 <=? n) && (n <=? 90))%N then ascii_of_N (n + 32) else c.

Fixpoint toLowerCase (s : string) : string :=
  match s with
  | EmptyString => EmptyString
  | String c s' => String (lower_ascii c) (toLowerCase s')
  end.

(** [x || null] on an optional number: [undefined] and [0] are both falsy. *)
Definition or_null (x : option N) : option N :=
  match x with
  | Some 0%N => None
  | Some n => Some n
  | None => None
  end.

(** Truthiness of an optional string ([undefined] and [""] are falsy). *)
Definition truthy_string (x : option string) : bool :=
  match x with
  | Some EmptyString => false
  | Some _ => true
  | None => false
  end.

(** Truthiness of an optional BigInt ([undefined] and [0n] are falsy). *)
Definition truthy_bigint (x : option N) : bool :=
  match x with
  | Some 0%N => false
  | Some _ => true
  | None => false
  end.

(** *** Numbers *)

Module Binary64.

Definition prec : Z := 53.
Definition emax : Z := 1024.

(** The binary64 value nearest to [num / den], ties to even. *)
Definition of_ratio (num : Z) (den : positive) : spec_float :=
  match num with
  | Z0 => S754_zero false
  | Zpos n => SFdiv prec emax (S754_finite false n 0) (S754_finite false den 0)
  | Zneg n => SFdiv prec emax (S754_finite true n 0) (S754_finite false den 0)
  end.

(** The binary64 value nearest to an integer. *)
Definition of_Z (n : Z) : spec_float := binary_normalize prec emax n 0 false.

(** [x * y] *)
Definition mul (x y : spec_float) : spec_float := SFmul prec emax x y.

(** [Math.floor(x)] of a finite [x], as an integer.  The products of the
    listeners stay far below the largest finite value for every amount a
    [uint256] holds; a value that is not finite is given 0 here. *)
Definition floor (x : spec_float) : Z :=
  match x with
  | S754_finite s m e =>
      let v := if s then Z.neg m else Z.pos m in
      match e with
      | Z0 => v
      | Zpos p => v * 2 ^ Zpos p
      | Zneg p => v / 2 ^ Zpos p
      end
  | _ => 0
  end.

(** Truthiness: [0], [-0] and [NaN] are falsy. *)
Definition truthy (x : spec_float) : bool :=
  match x with
  | S754_zero _ | S754_nan => false
  | _ => true
  end.

End Binary64.

(** [formatUnits(value, decimals)]: the decimal [value / 10^decimals] that
    the returned string denotes. *)
Definition formatUnits (value : N) (decimals : positive) : Q :=
  Z.of_N value # (10 ^ decimals)%positive.

(** [Number(s)] of a decimal string: the nearest binary64 value. *)
Definition Number (q : Q) : spec_float := Binary64.of_ratio (Qnum q) (Qden q).

(** [Number(n)] of a BigInt that is then used as an integer (a market id):
    the integer the nearest binary64 value denotes. *)
Definition Number_of_bigint (n : N) : N :=
  Z.to_N (Binary64.floor (Binary64.of_Z (Z.of_N n))).

(** Truthiness of an optional Number ([undefined], [0] and [NaN] are falsy). *)
Definition truthy_number (x : option spec_float) : bool :=
  match x with
  | Some v => Binary64.truthy v
  | None => false
  end.

(** [POINTS_PER_DOLLAR = 10] and [WIN_MULTIPLIER = 5] *)
Definition POINTS_PER_DOLLAR : spec_float := Binary64.of_Z 10.
Definition WIN_MULTIPLIER : spec_float := Binary64.of_Z 5.

Arguments Number : simpl never.
Arguments Number_of_bigint : simpl never.
Arguments Binary64.mul : simpl never.
Arguments Binary64.floor : simpl never.

(** ** Data model *)

Inductive Source := bet_volume | win_bonus.

Definition Source_eqb (a b : Source) : bool :=
  match a, b with
  | bet_volume, bet_volume => true
  | win_bonus, win_bonus => true
  | _, _ => false
  end.

(** The [metadata] object handed to [awardPoints]; every key is optional. *)
Record Metadata := {
  md_betId : option N;
  md_marketId : option N;
  md_betAmount : option spec_float;
  md_payout : option spec_float;
  md_txHash : option string
}.

(** A row of [points_ledger].  The surrogate key [id] is the row's position
    in the table: the store assigns it, in insertion order. *)
Record LedgerRow := {
  wallet_address : string;
  points_earned : Z;
  source : Source;
  bet_id : option N;
  market_id : option N;
  metadata : Metadata
}.

(** The decoded arguments of a log and the raw log itself. *)
Record Args := {
  marketId : N;
  user : option string;
  amount : option N
}.

Record RawLog := {
  args : option Args;
  transactionHash : string;
  blockNumber : N
}.

(** ** The collaborators *)

(** What a request to a collaborator does: answer, answer with an error
    object carrying a code, or throw. *)
Inductive Fault := Healthy | Fails (code : string) | Crashes.

Inductive EventKind := BetPlaced | WinningsClaimed.

(** The requests the scripts issue, as the trace records them. *)
Inductive Request :=
| SelectUser (address : string)
| InsertUser (address : string) (total_points : Z)
| UpdateUser (address : string) (total_points : Z)
| InsertLedger (row : LedgerRow)
| SelectBet (address : string) (market : N)
| GetBlockNumber
| GetLogs (kind : EventKind) (fromBlock toBlock : N).

Record World := {
  users : gmap string Z;
  ledger : list LedgerRow;
  requests : list Request;
  faults : list Fault
}.

(** What JavaScript code throws. *)
Inductive Thrown := StoreError (code : string) | TransportError | TypeError.

Inductive Outcome (A : Type) :=
| Returned (a : A)
| Threw (e : Thrown).
Arguments Returned {A} a.
Arguments Threw {A} e.

(** Computations of the scripts: world passing with exceptions. *)
Definition M (A : Type) : Type := World -> Outcome A * World.

Definition ret {A} (a : A) : M A := fun w => (Returned a, w).

Definition throw {A} (e : Thrown) : M A := fun w => (Threw e, w).

Definition bind {A B} (m : M A) (k : A -> M B) : M B :=
  fun w =>
    match m w with
    | (Returned a, w') => k a w'
    | (Threw e, w') => (Threw e, w')
    end.

(** [try { m } catch (error) { h error }] *)
Definition try_catch {A} (m : M A) (h : Thrown -> M A) : M A :=
  fun w =>
    match m w with
    | (Returned a, w') => (Returned a, w')
    | (Threw e, w') => h e w'
    end.

Declare Scope js_scope.
Delimit Scope js_scope with js.
Notation "x <- m ;; k" := (bind m (fun x => k))
  (at level 100, m at next level, right associativity) : js_scope.
Notation "m ;; k" := (bind m (fun _ => k))
  (at level 100, right associativity) : js_scope.

(** [for (const log of logs) { await h(log); }] *)
Fixpoint for_of {A} (logs : list A) (h : A -> M unit) : M unit :=
  match logs with
  | [] => ret tt
  | log :: rest => bind (h log) (fun _ => for_of rest h)
  end.

(** Every request is recorded, then takes the next fault of the schedule
    (an exhausted schedule is healthy). *)
Definition request (r : Request) : M Fault :=
  fun w =>
    match faults w with
    | [] =>
        (Returned Healthy,
         {| users := users w; ledger := ledger w;
            requests := requests w ++ [r]; faults := [] |})
    | f :: fs =>
        (Returned f,
         {| users := users w; ledger := ledger w;
            requests := requests w ++ [r]; faults := fs |})
    end.

Definition set_users (u : gmap string Z) : M unit :=
  fun w =>
    (Returned tt,
     {| users := u; ledger := ledger w;
        requests := requests w; faults := faults w |}).

Definition set_ledger (l : list LedgerRow) : M unit :=
  fun w =>
    (Returned tt,
     {| users := users w; ledger := l;
        requests := requests w; faults := faults w |}).

Definition get_users : M (gmap string Z) := fun w => (Returned (users w), w).
Definition get_ledger : M (list LedgerRow) := fun w => (Returned (ledger w), w).

Module Store.
Local Open Scope js_scope.

(** [from('users').select(..).eq('wallet_address', address).single()]:
    the [data] of the answer ([null] when no row, or on an error). *)
Definition select_user (address : string) : M (option Z) :=
  f <- request (SelectUser address) ;;
  match f with
  | Healthy => u <- get_users ;; ret (u !! address)
  | Fails _ => ret None
  | Crashes => throw TransportError
  end.

(** [from('users').insert({wallet_address, total_points, ..})]: the
    [error] of the answer.  [wallet_address] is the primary key, so a
    second row for an address is refused with code 23505. *)
Definition insert_user (address : string) (total_points : Z)
  : M (option string) :=
  f <- request (InsertUser address total_points) ;;
  match f with
  | Healthy =>
      u <- get_users ;;
      match u !! address with
      | Some _ => ret (Some "23505"%string)
      | None => set_users (<[address := total_points]> u) ;; ret None
      end
  | Fails code => ret (Some code)
  | Crashes => throw TransportError
  end.

(** [from('users').update({total_points, ..}).eq('wallet_address', address)];
    the scripts never look at its answer. *)
Definition update_user (address : string) (total_points : Z) : M unit :=
  f <- request (UpdateUser address total_points) ;;
  match f with
  | Healthy =>
      u <- get_users ;;
      match u !! address with
      | Some _ => set_users (<[address := total_points]> u)
      | None => ret tt
      end
  | Fails _ => ret tt
  | Crashes => throw TransportError
  end.

(** [from('points_ledger').insert(row)]: the [error] of the answer.  The
    only key of the table is the surrogate [id], which the store assigns,
    so a healthy insert always appends. *)
Definition insert_ledger (row : LedgerRow) : M (option string) :=
  f <- request (InsertLedger row) ;;
  match f with
  | Healthy => l <- get_ledger ;; set_ledger (l ++ [row]) ;; ret None
  | Fails code => ret (Some code)
  | Crashes => throw TransportError
  end.

(** The rows the win handlers look for:
    [.eq('wallet_address', a).eq('market_id', m).eq('source', 'bet_volume')].
    A row whose [market_id] is [null] matches no [m]. *)
Definition is_bet_for (address : string) (market : N) (row : LedgerRow) : bool :=
  String.eqb (wallet_address row) address
  && match market_id row with
     | Some m => N.eqb m market
     | None => false
     end
  && Source_eqb (source row) bet_volume.

(** [.order('id', { ascending: false }).limit(1).single()]: the matching
    row with the greatest id, that is the last one inserted. *)
Definition latest_bet (address : string) (market : N) (l : list LedgerRow)
  : option Metadata :=
  match rev (List.filter (is_bet_for address market) l) with
  | row :: _ => Some (metadata row)
  | [] => None
  end.

(** [.single()] alone: [data] only when exactly one row matches. *)
Definition single_bet (address : string) (market : N) (l : list LedgerRow)
  : option Metadata :=
  match List.filter (is_bet_for address market) l with
  | [row] => Some (metadata row)
  | _ => None
  end.

Definition select_latest_bet (address : string) (market : N)
  : M (option Metadata) :=
  f <- request (SelectBet address market) ;;
  match f with
  | Healthy => l <- get_ledger ;; ret (latest_bet address market l)
  | Fails _ => ret None
  | Crashes => throw TransportError
  end.

Definition select_single_bet (address : string) (market : N)
  : M (option Metadata) :=
  f <- request (SelectBet address market) ;;
  match f with
  | Healthy => l <- get_ledger ;; ret (single_bet address market l)
  | Fails _ => ret None
  | Crashes => throw TransportError
  end.

End Store.

(** The chain as one tick sees it. *)
Record Chain := {
  chain_head : N;
  betLogs : list RawLog;
  winLogs : list RawLog
}.

Module Client.
Local Open Scope js_scope.

Definition in_range (fromBlock toBlock : N) (log : RawLog) : bool :=
  ((fromBlock <=? blockNumber log) && (blockNumber log <=? toBlock))%N.

Definition logs_of (ch : Chain) (kind : EventKind) : list RawLog :=
  match kind with
  | BetPlaced => betLogs ch
  | WinningsClaimed => winLogs ch
  end.

(** [publicClient.getBlockNumber()] *)
Definition getBlockNumber (ch : Chain) : M N :=
  f <- request GetBlockNumber ;;
  match f with
  | Healthy => ret (chain_head ch)
  | _ => throw TransportError
  end.

(** [publicClient.getLogs({ event, fromBlock, toBlock })] *)
Definition getLogs (ch : Chain) (kind : EventKind) (fromBlock toBlock : N)
  : M (list RawLog) :=
  f <- request (GetLogs kind fromBlock toBlock) ;;
  match f with
  | Healthy => ret (List.filter (in_range fromBlock toBlock) (logs_of ch kind))
  | _ => throw TransportError
  end.
End Client.

(** The object both [awardPoints] insert into [points_ledger]. *)
Definition ledger_row (address : string) (points : Z) (source : Source)
    (metadata : Metadata) : LedgerRow :=
  {| wallet_address := address;
     points_earned := points;
     source := source;
     bet_id := or_null (md_betId metadata);
     market_id := or_null (md_marketId metadata);
     metadata := metadata |}.

(** ** The polling listener *)

Module Polling.
Local Open Scope js_scope.

Definition ensureUserExists (wallet : string) : M unit :=
  let address := toLowerCase wallet in
  existingUser <- Store.select_user address ;;
  match existingUser with
  | Some _ => ret tt
  | None =>
      error <- Store.insert_user address 0 ;;
      match error with
      | Some code =>
          if String.eqb code "23505" then ret tt else throw (StoreError code)
      | None => ret tt
      end
  end.

Definition awardPoints (wallet : string) (points : Z) (source : Source)
    (metadata : Metadata) : M unit :=
  try_catch
    (let address := toLowerCase wallet in
     ensureUserExists address ;;
     ledgerError <- Store.insert_ledger (ledger_row address points source metadata) ;;
     match ledgerError with
     | Some _ => ret tt
     | None =>
         user <- Store.select_user address ;;
         match user with
         | Some total_points => Store.update_user address (total_points + points)
         | None => ret tt
         end
     end)
    (fun _ => ret tt).

(** [!log.args || !log.args.user || !log.args.amount] *)
Definition invalid (log : RawLog) : bool :=
  match args log with
  | None => true
  | Some a => negb (truthy_string (user a)) || negb (truthy_bigint (amount a))
  end.

Definition bet_metadata (market : N) (usdcAmount : spec_float) (txHash : string)
  : Metadata :=
  {| md_betId := None; md_marketId := Some market;
     md_betAmount := Some usdcAmount; md_payout := None;
     md_txHash := Some txHash |}.

Definition win_metadata (market : N) (payout : spec_float) (txHash : string)
  : Metadata :=
  {| md_betId := None; md_marketId := Some market;
     md_betAmount := None; md_payout := Some payout;
     md_txHash := Some txHash |}.

Definition handleBetPlaced (log : RawLog) : M unit :=
  try_catch
    (if invalid log then ret tt
     else
       match args log with
       | Some {| marketId := marketId; user := Some user; amount := Some amount |} =>
           let usdcAmount := Number (formatUnits amount 6) in
           let basePoints :=
             Binary64.floor (Binary64.mul usdcAmount POINTS_PER_DOLLAR) in
           awardPoints user basePoints bet_volume
             (bet_metadata (Number_of_bigint marketId) usdcAmount
                (transactionHash log))
       | _ => ret tt
       end)
    (fun _ => ret tt).

Definition handleWinningsClaimed (log : RawLog) : M unit :=
  try_catch
    (if invalid log then ret tt
     else
       match args log with
       | Some {| marketId := marketId; user := Some user; amount := Some payout |} =>
           if N.eqb payout 0 then ret tt
           else
             betRecord <-
               Store.select_latest_bet (toLowerCase user)
                 (Number_of_bigint marketId) ;;
             match betRecord with
             | Some {| md_betAmount := Some originalBet |} =>
                 if truthy_number (Some originalBet) then
                   let winBonus :=
                     Binary64.floor
                       (Binary64.mul
                          (Binary64.mul originalBet POINTS_PER_DOLLAR)
                          WIN_MULTIPLIER) in
                   awardPoints user winBonus win_bonus
                     (win_metadata (Number_of_bigint marketId)
                        (Number (formatUnits payout 6))
                        (transactionHash log))
                 else ret tt
             | _ => ret tt
             end
       | _ => ret tt
       end)
    (fun _ => ret tt).

(** The two loops of a tick: every bet log, then every win log. *)
Definition process_window (betLogs winLogs : list RawLog) : M unit :=
  for_of betLogs handleBetPlaced ;;
  for_of winLogs handleWinningsClaimed.

(** The body of the [try] block of one polling tick; it returns the new
    value of [lastProcessedBlock]. *)
Definition tick_body (ch : Chain) (lastProcessedBlock : N) : M N :=
  currentBlock <- Client.getBlockNumber ch ;;
  if (currentBlock <=? lastProcessedBlock)%N then ret lastProcessedBlock
  else
    betLogs <- Client.getLogs ch BetPlaced (lastProcessedBlock + 1) currentBlock ;;
    winLogs <- Client.getLogs ch WinningsClaimed (lastProcessedBlock + 1) currentBlock ;;
    process_window betLogs winLogs ;;
    ret currentBlock.

(** One firing of the [setInterval] callback: cursor in, cursor out. *)
Definition tick (ch : Chain) (lastProcessedBlock : N) (w : World) : N * World :=
  match tick_body ch lastProcessedBlock w with
  | (Returned cursor, w') => (cursor, w')
  | (Threw _, w') => (lastProcessedBlock, w')
  end.




End Polling.

(** ** The subscription listener ([src/index.js]) *)

Module Watch.
Local Open Scope js_scope.

Definition awardPoints (wallet : string) (points : Z) (source : Source)
    (metadata : Metadata) : M unit :=
  try_catch
    (ledgerError <-
       Store.insert_ledger
         (ledger_row (toLowerCase wallet) points source metadata) ;;
     match ledgerError with
     | Some code => throw (StoreError code)
     | None =>
         user <- Store.select_user (toLowerCase wallet) ;;
         match user with
         | Some total_points =>
             Store.update_user (toLowerCase wallet) (total_points + points)
         | None =>
             Store.insert_user (toLowerCase wallet) points ;; ret tt
         end
     end)
    (fun _ => ret tt).

Definition bet_metadata (market : N) (usdcAmount : spec_float) : Metadata :=
  {| md_betId := None; md_marketId := Some market;
     md_betAmount := Some usdcAmount; md_payout := None;
     md_txHash := None |}.

Definition win_metadata (market : N) (payout : spec_float) : Metadata :=
  {| md_betId := None; md_marketId := Some market;
     md_betAmount := None; md_payout := Some payout;
     md_txHash := None |}.

(** No guard here: destructuring a missing [args] and formatting a missing
    [amount] throw out of the handler; a missing [user] throws inside
    [awardPoints], at [wallet.toLowerCase()], where it is caught before any
    request is made. *)
Definition handleBetPlaced (log : RawLog) : M unit :=
  match args log with
  | None => throw TypeError
  | Some {| marketId := marketId; user := user; amount := amount |} =>
      match amount with
      | None => throw TypeError
      | Some amount =>
          let usdcAmount := Number (formatUnits amount 6) in
          let basePoints :=
            Binary64.floor (Binary64.mul usdcAmount POINTS_PER_DOLLAR) in
          match user with
          | None => ret tt
          | Some user =>
              awardPoints user basePoints bet_volume
                (bet_metadata (Number_of_bigint marketId) usdcAmount)
          end
      end
  end.

Definition handleWinningsClaimed (log : RawLog) : M unit :=
  match args log with
  | None => throw TypeError
  | Some {| marketId := marketId; user := user; amount := payout |} =>
      match user with
      | None => throw TypeError
      | Some user =>
          betRecord <-
            Store.select_single_bet (toLowerCase user)
              (Number_of_bigint marketId) ;;
          match betRecord with
          | Some {| md_betAmount := Some originalBet |} =>
              if truthy_number (Some originalBet) then
                let winBonus :=
                  Binary64.floor
                    (Binary64.mul
                       (Binary64.mul originalBet POINTS_PER_DOLLAR)
                       WIN_MULTIPLIER) in
                match payout with
                | None => throw TypeError
                | Some payout =>
                    awardPoints user winBonus win_bonus
                      (win_metadata (Number_of_bigint marketId)
                         (Number (formatUnits payout 6)))
                end
              else ret tt
          | _ => ret tt
          end
      end
  end.

(** The two [onLogs] callbacks of [startListener]. *)
Definition onBetPlacedLogs (logs : list RawLog) : M unit :=
  for_of logs handleBetPlaced.

End Watch.

(** ** Observations on a world *)

(** [UserAggregate.totalPoints] of a wallet (zero while it has no row). *)
Definition totalPoints (w : World) (address : string) : Z :=
  default 0 (users w !! address).

(** The sum of [points_earned] over the ledger rows of a wallet. *)
Fixpoint ledger_points (address : string) (l : list LedgerRow) : Z :=
  match l with
  | [] => 0
  | row :: rest =>
      (if String.eqb (wallet_address row) address then points_earned row else 0)
      + ledger_points address rest
  end.

(** A store with no rows that answers every request. *)
Definition empty_world : World :=
  {| users := ∅; ledger := []; requests := []; faults := [] |}.

(** The same tables under a schedule of faults. *)
Definition with_faults (fs : list Fault) (w : World) : World :=
  {| users := users w; ledger := ledger w; requests := requests w; faults := fs |}.

(** A well-formed [BetPlaced] log. *)
Definition bet_log (market : N) (who : string) (raw : N) (tx : string) (blk : N)
  : RawLog :=
  {| args := Some {| marketId := market; user := Some who; amount := Some raw |};
     transactionHash := tx; blockNumber := blk |}.

(** A [WinningsClaimed] log has the same fields; [raw] is the payout. *)
Definition win_log (market : N) (who : string) (raw : N) (tx : string) (blk : N)
  : RawLog :=
  bet_log market who raw tx blk.

(** The requests issued between two worlds. *)
Definition new_requests (w w' : World) : list Request :=
  drop (length (requests w)) (requests w').

(** No request of [credit] is sent before the first ledger insert. *)
Fixpoint append_first (credit : Request -> bool) (tr : list Request) : bool :=
  match tr with
  | [] => true
  | InsertLedger _ :: _ => true
  | r :: rest => negb (credit r) && append_first credit rest
  end.

(** The requests that credit an aggregate row: an update of [total_points]
    and, in [src/index.js], the insert of a row that starts at the points
    awarded. *)
Definition is_update (r : Request) : bool :=
  match r with UpdateUser _ _ => true | _ => false end.

Definition is_update_or_insert (r : Request) : bool :=
  match r with UpdateUser _ _ | InsertUser _ _ => true | _ => false end.

(** No aggregate total changed. *)
Definition same_totals (w w' : World) : Prop :=
  forall a, totalPoints w' a = totalPoints w a.

(** The aggregate of [address] rose by [points], no other changed. *)
Definition credited (address : string) (points : Z) (w w' : World) : Prop :=
  forall a,
    totalPoints w' a
    = totalPoints w a + (if String.eqb a address then points else 0).

(** What one call of [awardPoints] can leave behind. *)
Inductive AwardEffect (row : LedgerRow) (w w' : World) : Prop :=
| NothingWritten :
    ledger w' = ledger w -> same_totals w w' -> AwardEffect row w w'
| LedgerOnly :
    ledger w' = ledger w ++ [row] -> same_totals w w' -> AwardEffect row w w'
| LedgerThenCredit :
    ledger w' = ledger w ++ [row] ->
    credited (wallet_address row) (points_earned row) w w' ->
    AwardEffect row w w'.

(** [rows] were appended to the ledger and credited to their wallets. *)
Definition Awarded (rows : list LedgerRow) (w w' : World) : Prop :=
  faults w' = [] /\
  ledger w' = ledger w ++ rows /\
  forall a, totalPoints w' a = totalPoints w a + ledger_points a rows.

Definition option_list {A} (o : option A) : list A :=
  match o with Some a => [a] | None => [] end.

Module PollingRows.

(** The ledger row a bet log yields, if any. *)
Definition bet_row (log : RawLog) : option LedgerRow :=
  if Polling.invalid log then None
  else
    match args log with
    | Some {| marketId := m; user := Some u; amount := Some raw |} =>
        Some (ledger_row (toLowerCase u)
                (Binary64.floor
                   (Binary64.mul (Number (formatUnits raw 6)) POINTS_PER_DOLLAR))
                bet_volume
                (Polling.bet_metadata (Number_of_bigint m)
                   (Number (formatUnits raw 6)) (transactionHash log)))
    | _ => None
    end.




End PollingRows.


(** One log handed to one handler of either listener. *)
Inductive Delivery :=
| PollingBet (log : RawLog)
| PollingWin (log : RawLog)
| WatchBet (log : RawLog)
| WatchWin (log : RawLog).

Definition deliver (d : Delivery) : M unit :=
  match d with
  | PollingBet log => Polling.handleBetPlaced log
  | PollingWin log => Polling.handleWinningsClaimed log
  | WatchBet log => Watch.handleBetPlaced log
  | WatchWin log => Watch.handleWinningsClaimed log
  end.

Definition deliver_all (ds : list Delivery) (w : World) : World :=
  fold_left (fun w d => snd (deliver d w)) ds w.


(** The first [n] requests to come are answered. *)
Fixpoint healthy_prefix (n : nat) (fs : list Fault) : bool :=
  match n, fs with
  | O, _ => true
  | S _, [] => true
  | S n', Healthy :: fs' => healthy_prefix n' fs'
  | S _, _ :: _ => false
  end.

(** The logs of a tick's window [[cursor + 1, head]]. *)
Definition window (ch : Chain) (kind : EventKind) (cursor : N) : list RawLog :=
  List.filter (Client.in_range (cursor + 1) (chain_head ch))
    (Client.logs_of ch kind).

(** The three requests a tick makes before it handles a log. *)
Definition fetches (ch : Chain) (cursor : N) : list Request :=
  [GetBlockNumber;
   GetLogs BetPlaced (cursor + 1) (chain_head ch);
   GetLogs WinningsClaimed (cursor + 1) (chain_head ch)].

(** The ways the body of a tick ends. *)
Inductive TickResult (ch : Chain) (cursor : N) (w : World)
  : Outcome N -> World -> Prop :=
| TickIdle w1 :
    (chain_head ch <= cursor)%N ->
    users w1 = users w -> ledger w1 = ledger w ->
    new_requests w w1 = [GetBlockNumber] ->
    TickResult ch cursor w (Returned cursor) w1
| TickFetchThrew e n w1 :
    users w1 = users w -> ledger w1 = ledger w ->
    new_requests w w1 = firstn (S n) (fetches ch cursor) ->
    n = 0%nat \/ (cursor < chain_head ch)%N ->
    healthy_prefix 3 (faults w) = false ->
    TickResult ch cursor w (Threw e) w1
| TickProcessed w0 w1 :
    (cursor < chain_head ch)%N ->
    healthy_prefix 3 (faults w) = true ->
    users w0 = users w -> ledger w0 = ledger w ->
    new_requests w w0 = fetches ch cursor ->
    Polling.process_window (window ch BetPlaced cursor)
      (window ch WinningsClaimed cursor) w0 = (Returned tt, w1) ->
    TickResult ch cursor w (Returned (chain_head ch)) w1.


(** A log that lacks [args], the user address or the amount. *)
Definition missing_field (log : RawLog) : Prop :=
  args log = None \/
  exists a, args log = Some a /\ (user a = None \/ amount a = None).


(** The points of a bet and the bonus of its win, as the listeners compute
    them from the raw amount of the bet. *)
Definition bet_points (raw : N) : Z :=
  Binary64.floor (Binary64.mul (Number (formatUnits raw 6)) POINTS_PER_DOLLAR).

Definition win_points (raw : N) : Z :=
  Binary64.floor
    (Binary64.mul (Binary64.mul (Number (formatUnits raw 6)) POINTS_PER_DOLLAR)
       WIN_MULTIPLIER).

(** *** Both tables over any number of awards *)

(** A Number that is not below zero ([NaN] has no sign). *)
Definition non_negative (x : spec_float) : bool :=
  match x with
  | S754_finite s _ _ | S754_infinity s => negb s
  | _ => true
  end.





(** An address as the listeners store it. *)
Definition lower_cased (s : string) : Prop := toLowerCase s = s.

(** Every ledger row and every aggregate row of [w'] was in [w] already or
    is under a lower-cased address. *)
Definition Lowered (w w' : World) : Prop :=
  (forall row,
     In row (ledger w') -> In row (ledger w) \/ lower_cased (wallet_address row)) /\
  (forall k, is_Some (users w' !! k) -> is_Some (users w !! k) \/ lower_cased k).

(** *** Requests *)




(** ** Sample inputs *)

(** A bet log decoded without its [user]. *)
Definition log_without_user : RawLog :=
  {| args := Some {| marketId := 1; user := None; amount := Some 12500000%N |};
     transactionHash := "0xt0"; blockNumber := 6 |}.

(** A chain at head 7 with one bet of 12.50 USDC in block 6. *)
Definition chain_one_bet : Chain :=
  {| chain_head := 7;
     betLogs := [bet_log 1 "0xAb" 12500000 "0xt1" 6];
     winLogs := [] |}.

(** The fetches are answered, the user row is created, and then the ledger
    insert is refused. *)
Definition ledger_refused : World :=
  with_faults [Healthy; Healthy; Healthy; Healthy; Healthy; Fails "503"]
    empty_world.

(** A chain at head 7 with a bet in block 6 and its win in block 7. *)
Definition chain_bet_and_win : Chain :=
  {| chain_head := 7;
     betLogs := [bet_log 1 "0xAb" 12500000 "0xt1" 6];
     winLogs := [win_log 1 "0xAb" 25000000 "0xt2" 7] |}.

(** * Proofs *)

(** ** Basic facts *)

Lemma lower_ascii_idem c : lower_ascii (lower_ascii c) = lower_ascii c.
Proof. destruct c as [[] [] [] [] [] [] [] []]; reflexivity. Qed.

Lemma toLowerCase_idem s : toLowerCase (toLowerCase s) = toLowerCase s.
Proof.
  induction s as [|c s IH]; simpl; [reflexivity|].
  now rewrite lower_ascii_idem, IH.
Qed.


Lemma total_insert (u : gmap string Z) k v a :
  default 0 (<[k := v]> u !! a)
  = if String.eqb a k then v else default 0 (u !! a).
Proof.
  destruct (String.eqb_spec a k) as [->|Hne].
  - now rewrite lookup_insert_eq.
  - rewrite lookup_insert_ne by congruence. reflexivity.
Qed.

Ltac run_js :=
  cbv beta iota zeta delta
    [Polling.awardPoints Polling.ensureUserExists Watch.awardPoints
     Store.select_user Store.insert_user Store.update_user Store.insert_ledger
     Store.select_latest_bet Store.select_single_bet
     Client.getBlockNumber Client.getLogs
     try_catch bind ret throw request get_users get_ledger set_users set_ledger
     users ledger requests faults fst snd].

Ltac js_step :=
  first
    [ progress run_js
    | progress rewrite ?toLowerCase_idem, ?lookup_insert_eq
    | match goal with
      | H : ?u !! ?k = _ |- context [?u !! ?k] => rewrite H
      | |- context [match ?fs with [] => _ | _ :: _ => _ end] =>
          is_var fs; destruct fs as [|[|?|] ?]
      | |- context [?u !! ?k] =>
          is_var u; let H := fresh "Hu" in destruct (u !! k) eqn:H
      | |- context [if String.eqb ?c "23505" then _ else _] =>
          destruct (String.eqb c "23505")
      end ].

Ltac totals :=
  let a := fresh "a" in
  intros a; cbv [totalPoints users]; rewrite ?total_insert;
  cbv [ledger_row wallet_address points_earned];
  try match goal with
      | |- context [String.eqb a ?k] => destruct (String.eqb_spec a k) as [->|?]
      end;
  repeat match goal with H : _ !! _ = _ |- _ => rewrite H end;
  simpl; lia.

Ltac award_effect :=
  first [ apply LedgerThenCredit; [reflexivity | totals]
        | apply LedgerOnly; [reflexivity | totals]
        | apply NothingWritten; [reflexivity | totals] ].

Ltac award_leaf :=
  cbv [new_requests requests ledger faults];
  split; [reflexivity|]; split; [award_effect|];
  split;
  [ rewrite <- ?app_assoc, drop_app_length; reflexivity
  | first [ discriminate
          | intros _; split; [reflexivity|]; split; [reflexivity | totals] ] ].

Lemma Polling_awardPoints_effect wallet points src md w :
  let row := ledger_row (toLowerCase wallet) points src md in
  let w' := snd (Polling.awardPoints wallet points src md w) in
  fst (Polling.awardPoints wallet points src md w) = Returned tt /\
  AwardEffect row w w' /\
  append_first is_update (new_requests w w') = true /\
  (faults w = [] ->
   faults w' = [] /\ ledger w' = ledger w ++ [row] /\
   credited (toLowerCase wallet) points w w').
Proof.
  destruct w as [u l r fs]. intros row w'. subst row w'.
  repeat js_step; award_leaf.
Qed.

Lemma Watch_awardPoints_effect wallet points src md w :
  let row := ledger_row (toLowerCase wallet) points src md in
  let w' := snd (Watch.awardPoints wallet points src md w) in
  fst (Watch.awardPoints wallet points src md w) = Returned tt /\
  AwardEffect row w w' /\
  append_first is_update_or_insert (new_requests w w') = true /\
  (faults w = [] ->
   faults w' = [] /\ ledger w' = ledger w ++ [row] /\
   credited (toLowerCase wallet) points w w').
Proof.
  destruct w as [u l r fs]. intros row w'. subst row w'.
  repeat js_step; award_leaf.
Qed.

(** ** Healthy store: what the handlers write *)

Lemma Awarded_refl w : faults w = [] -> Awarded [] w w.
Proof.
  intros H. repeat split; [assumption | now rewrite app_nil_r | intros a; simpl; lia].
Qed.



Lemma credited_Awarded address points src md w w' :
  faults w' = [] ->
  ledger w' = ledger w ++ [ledger_row address points src md] ->
  credited address points w w' ->
  Awarded [ledger_row address points src md] w w'.
Proof.
  intros Hf Hl Hc. repeat split; [assumption | assumption |].
  intros a. rewrite Hc. simpl. rewrite (String.eqb_sym a address). lia.
Qed.

Lemma Polling_awardPoints_healthy wallet points src md w :
  faults w = [] ->
  fst (Polling.awardPoints wallet points src md w) = Returned tt /\
  Awarded [ledger_row (toLowerCase wallet) points src md] w
    (snd (Polling.awardPoints wallet points src md w)).
Proof.
  intros Hf.
  destruct (Polling_awardPoints_effect wallet points src md w)
    as (Hret & _ & _ & Hh).
  destruct (Hh Hf) as (Hf' & Hl & Hc).
  split; [assumption | now apply credited_Awarded].
Qed.

Lemma Watch_awardPoints_healthy wallet points src md w :
  faults w = [] ->
  fst (Watch.awardPoints wallet points src md w) = Returned tt /\
  Awarded [ledger_row (toLowerCase wallet) points src md] w
    (snd (Watch.awardPoints wallet points src md w)).
Proof.
  intros Hf.
  destruct (Watch_awardPoints_effect wallet points src md w)
    as (Hret & _ & _ & Hh).
  destruct (Hh Hf) as (Hf' & Hl & Hc).
  split; [assumption | now apply credited_Awarded].
Qed.



Lemma Polling_handleBetPlaced_healthy log w :
  faults w = [] ->
  fst (Polling.handleBetPlaced log w) = Returned tt /\
  Awarded (option_list (PollingRows.bet_row log)) w
    (snd (Polling.handleBetPlaced log w)).
Proof.
  intros Hf. unfold Polling.handleBetPlaced, PollingRows.bet_row, try_catch.
  destruct (Polling.invalid log) eqn:Hinv.
  { simpl. split; [reflexivity | now apply Awarded_refl]. }
  destruct (args log) as [[m [u|] [raw|]]|];
    try (simpl; split; [reflexivity | now apply Awarded_refl]).
  match goal with
  | |- context [Polling.awardPoints ?a ?b ?c ?d w] =>
      destruct (Polling_awardPoints_healthy a b c d w Hf) as (Hret & Haw);
      destruct (Polling.awardPoints a b c d w) as [o w']
  end.
  cbn [fst snd option_list] in *. subst o.
  split; [reflexivity | exact Haw].
Qed.






(** *** The look-up of the latest bet *)







(** *** The subscription listener on a healthy store *)

Lemma Watch_handleBetPlaced_healthy m u raw tx blk w :
  faults w = [] ->
  let log := {| args := Some {| marketId := m; user := Some u; amount := Some raw |};
                transactionHash := tx; blockNumber := blk |} in
  fst (Watch.handleBetPlaced log w) = Returned tt /\
  Awarded [ledger_row (toLowerCase u)
             (Binary64.floor
                (Binary64.mul (Number (formatUnits raw 6)) POINTS_PER_DOLLAR))
             bet_volume
             (Watch.bet_metadata (Number_of_bigint m)
                (Number (formatUnits raw 6)))] w
    (snd (Watch.handleBetPlaced log w)).
Proof.
  intros Hf log. unfold Watch.handleBetPlaced. cbn [args log].
  now apply Watch_awardPoints_healthy.
Qed.



(** ** Sequences of processed events *)




(** ** Any store: what reaches the polling loop *)

Lemma try_catch_returns (m : M unit) w :
  fst (try_catch m (fun _ => ret tt) w) = Returned tt.
Proof. unfold try_catch, ret. destruct (m w) as [[[]|e] w']; reflexivity. Qed.

Lemma Polling_awardPoints_returns wallet points src md w :
  fst (Polling.awardPoints wallet points src md w) = Returned tt.
Proof. apply try_catch_returns. Qed.

Lemma Watch_awardPoints_returns wallet points src md w :
  fst (Watch.awardPoints wallet points src md w) = Returned tt.
Proof. apply try_catch_returns. Qed.

Lemma Polling_handleBetPlaced_returns log w :
  fst (Polling.handleBetPlaced log w) = Returned tt.
Proof. apply try_catch_returns. Qed.

Lemma Polling_handleWinningsClaimed_returns log w :
  fst (Polling.handleWinningsClaimed log w) = Returned tt.
Proof. apply try_catch_returns. Qed.

Lemma for_of_returns {A} (h : A -> M unit) logs :
  (forall x w, fst (h x w) = Returned tt) ->
  forall w, fst (for_of logs h w) = Returned tt.
Proof.
  intros Hh. induction logs as [|x rest IH]; intros w; [reflexivity|].
  simpl. unfold bind. specialize (Hh x w).
  destruct (h x w) as [o w1]. simpl in Hh. subst o. apply IH.
Qed.

Lemma for_of_app {A} (h : A -> M unit) l1 l2 w :
  (forall x w, fst (h x w) = Returned tt) ->
  for_of (l1 ++ l2) h w = for_of l2 h (snd (for_of l1 h w)).
Proof.
  intros Hh. revert w. induction l1 as [|x rest IH]; intros w; [reflexivity|].
  simpl. unfold bind. specialize (Hh x w).
  destruct (h x w) as [o w1]. simpl in Hh. subst o. apply IH.
Qed.

Lemma process_window_returns bets wins w :
  fst (Polling.process_window bets wins w) = Returned tt.
Proof.
  unfold Polling.process_window, bind.
  pose proof (for_of_returns _ bets Polling_handleBetPlaced_returns w) as Hb.
  destruct (for_of bets Polling.handleBetPlaced w) as [o w1].
  simpl in Hb. subst o.
  apply (for_of_returns _ wins Polling_handleWinningsClaimed_returns).
Qed.

Lemma process_window_run bets wins w :
  Polling.process_window bets wins w
  = (Returned tt, snd (Polling.process_window bets wins w)).
Proof.
  pose proof (process_window_returns bets wins w) as H.
  destruct (Polling.process_window bets wins w) as [o w']. simpl in *.
  now subst o.
Qed.

Ltac tick_step :=
  first
    [ progress
        (cbv beta iota zeta delta
           [Polling.tick_body Client.getBlockNumber Client.getLogs
            bind ret throw request users ledger requests faults fst snd])
    | match goal with
      | |- context [match ?fs with [] => _ | _ :: _ => _ end] =>
          is_var fs; destruct fs as [|[|?|] ?]
      | |- context [(?a <=? ?b)%N] =>
          let H := fresh "Hle" in destruct (N.leb_spec a b) as [H|H]
      end ].

Ltac tick_leaf ch c :=
  match goal with
  | |- TickResult _ _ _ (Returned c) _ =>
      apply TickIdle;
      [ assumption | reflexivity | reflexivity
      | cbv [new_requests requests]; rewrite drop_app_length; reflexivity ]
  | |- TickResult _ _ _ (Threw _) _ =>
      let finish :=
        solve
          [ reflexivity
          | cbv [new_requests requests fetches];
            rewrite <- ?app_assoc, drop_app_length; reflexivity
          | left; reflexivity
          | right; assumption ] in
      first [ apply (TickFetchThrew ch c _ _ 0%nat); finish
            | apply (TickFetchThrew ch c _ _ 1%nat); finish
            | apply (TickFetchThrew ch c _ _ 2%nat); finish ]
  end.

Lemma tick_body_result ch c w :
  TickResult ch c w (fst (Polling.tick_body ch c w))
    (snd (Polling.tick_body ch c w)).
Proof.
  destruct w as [u l r fs].
  repeat tick_step; try (tick_leaf ch c).
  all: rewrite process_window_run; simpl;
    eapply TickProcessed;
    [ assumption | reflexivity | | | | apply process_window_run ];
    [ reflexivity | reflexivity
    | cbv [new_requests requests fetches];
      rewrite <- ?app_assoc, drop_app_length; reflexivity ].
Qed.





Lemma invalid_bet_log m u raw tx blk :
  u <> EmptyString -> raw <> 0%N ->
  Polling.invalid (bet_log m u raw tx blk) = false.
Proof.
  intros Hu Hraw. unfold Polling.invalid, bet_log. simpl.
  destruct u; [congruence|]. destruct raw; [congruence|]. reflexivity.
Qed.

(** ** The claims *)





Lemma missing_field_invalid log : missing_field log -> Polling.invalid log = true.
Proof.
  unfold Polling.invalid.
  intros [-> | (a & -> & [-> | ->])]; [reflexivity | reflexivity |].
  simpl. apply orb_true_r.
Qed.

Lemma invalid_skipped log w :
  Polling.invalid log = true ->
  Polling.handleBetPlaced log w = (Returned tt, w) /\
  Polling.handleWinningsClaimed log w = (Returned tt, w).
Proof.
  intros H. unfold Polling.handleBetPlaced, Polling.handleWinningsClaimed,
    try_catch. rewrite H. split; reflexivity.
Qed.

(** C8.  A raw log that lacks [args], the user address or the amount is
    skipped by both handlers of the polling listener, whatever the store
    does: the handler returns normally and leaves the world exactly as it
    was (no ledger row, no aggregate change, not even a request), and the
    logs before and after it in the window are processed as if it were not
    there. *)
Theorem malformed_log_is_skipped
    (log : RawLog) (w : World) (before after : list RawLog) :
  missing_field log ->
  Polling.handleBetPlaced log w = (Returned tt, w) /\
  Polling.handleWinningsClaimed log w = (Returned tt, w) /\
  for_of (before ++ log :: after) Polling.handleBetPlaced w
  = for_of (before ++ after) Polling.handleBetPlaced w /\
  for_of (before ++ log :: after) Polling.handleWinningsClaimed w
  = for_of (before ++ after) Polling.handleWinningsClaimed w.
Proof.
  intros Hmiss. pose proof (missing_field_invalid log Hmiss) as Hinv.
  split; [apply (invalid_skipped log w Hinv)|].
  split; [apply (invalid_skipped log w Hinv)|].
  split.
  - rewrite !(for_of_app _ _ _ _ Polling_handleBetPlaced_returns).
    simpl. unfold bind at 1.
    now rewrite (proj1 (invalid_skipped log _ Hinv)).
  - rewrite !(for_of_app _ _ _ _ Polling_handleWinningsClaimed_returns).
    simpl. unfold bind at 1.
    now rewrite (proj2 (invalid_skipped log _ Hinv)).
Qed.

Lemma malformed_log_witness :
  missing_field log_without_user /\
  Polling.handleBetPlaced log_without_user empty_world = (Returned tt, empty_world) /\
  Polling.handleWinningsClaimed log_without_user empty_world
  = (Returned tt, empty_world) /\
  for_of ([bet_log 1 "0xAb" 12500000 "0xt1" 5] ++ log_without_user
            :: [bet_log 2 "0xCd" 1000000 "0xt2" 6])
    Polling.handleBetPlaced empty_world
  = for_of ([bet_log 1 "0xAb" 12500000 "0xt1" 5]
            ++ [bet_log 2 "0xCd" 1000000 "0xt2" 6])
      Polling.handleBetPlaced empty_world /\
  for_of ([bet_log 1 "0xAb" 12500000 "0xt1" 5] ++ log_without_user
            :: [bet_log 2 "0xCd" 1000000 "0xt2" 6])
    Polling.handleWinningsClaimed empty_world
  = for_of ([bet_log 1 "0xAb" 12500000 "0xt1" 5]
            ++ [bet_log 2 "0xCd" 1000000 "0xt2" 6])
      Polling.handleWinningsClaimed empty_world.
Proof.
  assert (H : missing_field log_without_user).
  { right. exists {| marketId := 1; user := None; amount := Some 12500000%N |}.
    split; [reflexivity | left; reflexivity]. }
  split; [exact H|].
  apply (malformed_log_is_skipped log_without_user empty_world
           [bet_log 1 "0xAb" 12500000 "0xt1" 5]
           [bet_log 2 "0xCd" 1000000 "0xt2" 6] H).
Defined.

Lemma tick_advances_when_fetches_answer ch c w :
  healthy_prefix 3 (faults w) = true -> (c < chain_head ch)%N ->
  fst (Polling.tick ch c w) = chain_head ch.
Proof.
  intros Hh Hlt. unfold Polling.tick.
  pose proof (tick_body_result ch c w) as Hres.
  destruct (Polling.tick_body ch c w) as [o w']. simpl in Hres.
  inversion Hres; subst; try reflexivity; [lia | congruence].
Qed.

(** C10.  [awardPoints] (both listeners) and the two handlers of the polling
    listener return normally from every world, that is under every schedule
    of store answers, errors and crashes; hence once the three fetches of a
    tick are answered and the head is past the cursor, the tick sets the
    cursor to the head whatever the store does to the awards. *)
Theorem award_failures_stay_inside_handlers
    (ch : Chain) (c : N) (w0 w : World)
    (wallet : string) (points : Z) (src : Source) (md : Metadata)
    (log : RawLog) :
  healthy_prefix 3 (faults w) = true -> (c < chain_head ch)%N ->
  fst (Polling.awardPoints wallet points src md w0) = Returned tt /\
  fst (Watch.awardPoints wallet points src md w0) = Returned tt /\
  fst (Polling.handleBetPlaced log w0) = Returned tt /\
  fst (Polling.handleWinningsClaimed log w0) = Returned tt /\
  fst (Polling.tick ch c w) = chain_head ch.
Proof.
  intros Hh Hlt.
  split; [apply Polling_awardPoints_returns|].
  split; [apply Watch_awardPoints_returns|].
  split; [apply Polling_handleBetPlaced_returns|].
  split; [apply Polling_handleWinningsClaimed_returns|].
  now apply tick_advances_when_fetches_answer.
Qed.

Lemma award_failures_witness :
  healthy_prefix 3 (faults ledger_refused) = true /\
  (5 < chain_head chain_one_bet)%N /\
  fst (Polling.awardPoints "0xAb" 125 bet_volume
         (Polling.bet_metadata 1 (Number (formatUnits 12500000 6)) "0xt1")
         (with_faults [Crashes] empty_world)) = Returned tt /\
  fst (Watch.awardPoints "0xAb" 125 bet_volume
         (Polling.bet_metadata 1 (Number (formatUnits 12500000 6)) "0xt1")
         (with_faults [Crashes] empty_world)) = Returned tt /\
  fst (Polling.handleBetPlaced (bet_log 1 "0xAb" 12500000 "0xt1" 6)
         (with_faults [Crashes] empty_world)) = Returned tt /\
  fst (Polling.handleWinningsClaimed (bet_log 1 "0xAb" 12500000 "0xt1" 6)
         (with_faults [Crashes] empty_world)) = Returned tt /\
  fst (Polling.tick chain_one_bet 5 ledger_refused) = chain_head chain_one_bet.
Proof.
  split; [reflexivity|]. split; [reflexivity|].
  apply (award_failures_stay_inside_handlers chain_one_bet 5
           (with_faults [Crashes] empty_world) ledger_refused);
    reflexivity.
Defined.







(** With a store that fails the equality is lost: here the credit of a
    ledgered bet is refused and the aggregate stays behind its ledger. *)
Example credit_refused_leaves_ledger_ahead :
  let w := with_faults [Healthy; Healthy; Healthy; Healthy; Fails "503"]
             empty_world in
  let w' := snd (Polling.handleBetPlaced (bet_log 1 "0xAb" 12500000 "0xt1" 6) w) in
  totalPoints w' "0xab" = 0 /\ ledger_points "0xab" (ledger w') = 125.
Proof. vm_compute. split; reflexivity. Qed.




(** *** The cursor *)








(** The order matters: the bet and its win of one window give 125 + 625
    points, and no bonus if the win were handled first. *)
Example bets_before_wins_scenario :
  let w' := snd (Polling.tick chain_bet_and_win 5 empty_world) in
  let swapped :=
    snd (Polling.handleBetPlaced (bet_log 1 "0xAb" 12500000 "0xt1" 6)
           (snd (Polling.handleWinningsClaimed
                   (win_log 1 "0xAb" 25000000 "0xt2" 7) empty_world))) in
  map points_earned (ledger w') = [125; 625] /\ totalPoints w' "0xab" = 750 /\
  map points_earned (ledger swapped) = [125] /\ totalPoints swapped "0xab" = 125.
Proof. vm_compute. repeat split; reflexivity. Qed.

(** *** Wins *)

(** C6 fails in [src/index.js], where a claim with a payout of zero is not
    told apart: after
    a bet of 12.50 USDC on market 1, the claim of 0 by the same wallet is
    awarded the bonus of 625 points.  The polling listener skips the same
    log and leaves the world as it was. *)
Theorem zero_payout_is_awarded_by_subscription_listener :
  let w := snd (Watch.handleBetPlaced (bet_log 1 "0xAb" 12500000 "0xt1" 6)
                  empty_world) in
  let claim := win_log 1 "0xAb" 0 "0xt2" 7 in
  let w' := snd (Watch.handleWinningsClaimed claim w) in
  map points_earned (ledger w) = [125] /\ totalPoints w "0xab" = 125 /\
  fst (Watch.handleWinningsClaimed claim w) = Returned tt /\
  map points_earned (ledger w') = [125; 625] /\
  map source (ledger w') = [bet_volume; win_bonus] /\
  totalPoints w' "0xab" = 750 /\
  Polling.handleWinningsClaimed claim w = (Returned tt, w).
Proof. vm_compute. repeat split; reflexivity. Qed.

(** The polling listener on a claim with a payout of zero, in any world. *)
Lemma Polling_zero_payout_is_skipped m u tx blk w :
  Polling.handleWinningsClaimed
    {| args := Some {| marketId := m; user := u; amount := Some 0%N |};
       transactionHash := tx; blockNumber := blk |} w
  = (Returned tt, w).
Proof.
  apply invalid_skipped. unfold Polling.invalid. simpl. apply orb_true_r.
Qed.

(** C4 fails on these inputs, on each of which a win after a ledgered bet
    gets no bonus or a smaller one.  A bet on market 0 is ledgered with
    [market_id] null ([metadata.marketId || null]) although its metadata
    says market 0, so the look-up of its win finds nothing, in either
    listener.  In [src/index.js], where the look-up is [.single()] without
    [.order(..).limit(1)], two bets of one wallet on one market leave the
    win without a bonus, where the polling listener awards it.  And the
    bonus is [Math.floor(a * 10 * 5)] in binary64: for a bet of 0.94 USDC
    the product is just below 47 and the bonus is 46, while
    [floor (0.94 * 50)] is 47. *)
Theorem win_after_bet_without_bonus :
  (let w1 := snd (Polling.handleBetPlaced
                    (bet_log 0 "0xAb" 12500000 "0xt1" 6) empty_world) in
   let w2 := snd (Polling.handleWinningsClaimed
                    (win_log 0 "0xAb" 25000000 "0xt2" 7) w1) in
   map market_id (ledger w1) = [None] /\
   map (fun row => md_marketId (metadata row)) (ledger w1) = [Some 0%N] /\
   map points_earned (ledger w2) = [125] /\ totalPoints w2 "0xab" = 125) /\
  (let w1 := snd (Watch.handleBetPlaced
                    (bet_log 0 "0xAb" 12500000 "0xt1" 6) empty_world) in
   let w2 := snd (Watch.handleWinningsClaimed
                    (win_log 0 "0xAb" 25000000 "0xt2" 7) w1) in
   map points_earned (ledger w2) = [125] /\ totalPoints w2 "0xab" = 125) /\
  (let w1 := snd (Watch.onBetPlacedLogs
                    [bet_log 1 "0xAb" 12500000 "0xt1" 6;
                     bet_log 1 "0xAb" 12500000 "0xt3" 6] empty_world) in
   let w2 := snd (Watch.handleWinningsClaimed
                    (win_log 1 "0xAb" 25000000 "0xt2" 7) w1) in
   let w2' := snd (Polling.handleWinningsClaimed
                     (win_log 1 "0xAb" 25000000 "0xt2" 7) w1) in
   map points_earned (ledger w2) = [125; 125] /\ totalPoints w2 "0xab" = 250 /\
   map points_earned (ledger w2') = [125; 125; 625] /\
   totalPoints w2' "0xab" = 875) /\
  (let w1 := snd (Polling.handleBetPlaced
                    (bet_log 1 "0xAb" 940000 "0xt1" 6) empty_world) in
   let w2 := snd (Polling.handleWinningsClaimed
                    (win_log 1 "0xAb" 1880000 "0xt2" 7) w1) in
   let w2' := snd (Watch.handleWinningsClaimed
                     (win_log 1 "0xAb" 1880000 "0xt2" 7) w1) in
   map points_earned (ledger w2) = [9; 46] /\
   map points_earned (ledger w2') = [9; 46] /\
   Qfloor (formatUnits 940000 6 * (50 # 1)) = 47).
Proof. vm_compute. repeat split; reflexivity. Qed.

(** The spec's scenario and a few amounts around it. *)
Example points_of_sample_amounts :
  map bet_points [12500000; 1000000; 940000; 700000; 100000; 99999; 1]%N
  = [125; 10; 9; 7; 1; 0; 0] /\
  map win_points [12500000; 1000000; 20000; 19999]%N = [625; 50; 1; 0].
Proof. vm_compute. split; reflexivity. Qed.

(** Against exact decimal arithmetic: the bet points are [raw / 100000] at
    and just below every multiple of 100000 raw units below 500 USDC; the
    first amounts at which binary64 rounding shows are far beyond 2^52 raw
    units for bets, and as small as 0.94 USDC for win bonuses. *)
Example bet_points_exact_on_boundaries :
  forallb
    (fun k =>
       (bet_points (N.of_nat k * 100000) =? Z.of_nat k)
       && (bet_points (N.of_nat k * 100000 - 1) =? Z.of_nat k - 1))
    (seq 1 4999) = true.
Proof. vm_compute. reflexivity. Qed.

Example binary64_rounding_shows :
  bet_points 6871989759599999 = 68719897596 /\
  Qfloor (formatUnits 6871989759599999 6 * (10 # 1)) = 68719897595 /\
  map win_points [940000; 1140000; 1180000]%N = [46; 56; 58] /\
  map (fun raw => Qfloor (formatUnits raw 6 * (50 # 1))) [940000; 1140000; 1180000]%N
  = [47; 57; 59].
Proof. vm_compute. repeat split; reflexivity. Qed.

Lemma filter_none {A} (f : A -> bool) l :
  Forall (fun x => f x = false) l -> List.filter f l = [].
Proof.
  induction 1 as [|x l Hx _ IH]; [reflexivity|]. simpl. now rewrite Hx.
Qed.


Lemma latest_bet_none a m l :
  Forall (fun r => Store.is_bet_for a m r = false) l ->
  Store.latest_bet a m l = None.
Proof.
  intros H. unfold Store.latest_bet. now rewrite (filter_none _ _ H).
Qed.



(** In the polling listener, whatever the store does, a claim whose wallet
    has no [bet_volume] row under that [market_id] is dropped: the handler
    returns normally and neither table changes. *)
Theorem polling_win_without_bet_is_dropped (log : RawLog) (w : World) :
  (forall a u,
      args log = Some a -> user a = Some u ->
      Forall (fun r =>
                Store.is_bet_for (toLowerCase u) (Number_of_bigint (marketId a)) r
                = false)
        (ledger w)) ->
  let w' := snd (Polling.handleWinningsClaimed log w) in
  fst (Polling.handleWinningsClaimed log w) = Returned tt /\
  users w' = users w /\ ledger w' = ledger w.
Proof.
  intros Hnone w'. split; [apply Polling_handleWinningsClaimed_returns|].
  subst w'. unfold Polling.handleWinningsClaimed, try_catch.
  destruct (Polling.invalid log); [split; reflexivity|].
  destruct (args log) as [[m [u|] [payout|]]|]; try (split; reflexivity).
  destruct (N.eqb payout 0); [split; reflexivity|].
  specialize (Hnone _ u eq_refl eq_refl). simpl in Hnone.
  destruct w as [us l r fs]. simpl in Hnone.
  destruct fs as [|[|code|] fs];
    cbv beta iota zeta delta
      [Store.select_latest_bet bind ret throw request get_ledger
       users ledger requests faults fst snd];
    rewrite ?(latest_bet_none _ _ _ Hnone); split; reflexivity.
Qed.

Lemma polling_win_without_bet_witness :
  let w' := snd (Polling.handleWinningsClaimed
                   (win_log 1 "0xAb" 25000000 "0xt2" 7) empty_world) in
  fst (Polling.handleWinningsClaimed (win_log 1 "0xAb" 25000000 "0xt2" 7)
         empty_world) = Returned tt /\
  users w' = users empty_world /\ ledger w' = ledger empty_world.
Proof.
  apply (polling_win_without_bet_is_dropped
           (win_log 1 "0xAb" 25000000 "0xt2" 7) empty_world).
  intros a u _ _. constructor.
Defined.

(** * Further properties of the code *)

(** ** [ensureUserExists] *)

Ltac same_totals_leaf :=
  let a := fresh "a" in
  intros a; cbv [totalPoints users]; rewrite ?total_insert;
  try match goal with
      | |- context [String.eqb a ?k] => destruct (String.eqb_spec a k) as [->|?]
      end;
  repeat match goal with H : _ !! _ = _ |- _ => rewrite H end;
  reflexivity.

Ltac ensure_leaf :=
  cbv [new_requests requests ledger faults totalPoints users];
  rewrite <- ?app_assoc, ?drop_app_length;
  split; [reflexivity|];
  split; [same_totals_leaf|];
  split; [intros x Hx; now rewrite ?lookup_insert_ne by congruence|];
  split; [first [ left; reflexivity
                | right; rewrite ?lookup_insert_eq;
                  split; first [assumption | reflexivity] ]|];
  split; [first [left; reflexivity | right; reflexivity]|];
  first [ discriminate
        | intros _; rewrite ?lookup_insert_eq;
          repeat match goal with H : _ !! _ = _ |- _ => rewrite H end;
          repeat split; reflexivity ].

(** As [js_step], keeping what the comparison of the error code said. *)
Ltac js_step_code :=
  first
    [ match goal with
      | |- context [if String.eqb ?c "23505" then _ else _] =>
          let H := fresh "Hcode" in destruct (String.eqb_spec c "23505") as [H|H]
      end
    | js_step ].

(** Whatever the store does, [ensureUserExists] never writes the ledger and
    never changes a total: it sends the look-up of the lower-cased address
    and at most one insert, the row of every other address is as it was,
    and the row of this address is as it was or, if there was none, new
    with zero points.  On a store that answers it returns normally and the
    row exists afterwards, holding the total the wallet had. *)
Theorem ensureUserExists_adds_at_most_a_zero_row (wallet : string) (w : World) :
  let address := toLowerCase wallet in
  let w' := snd (Polling.ensureUserExists wallet w) in
  ledger w' = ledger w /\
  same_totals w w' /\
  (forall x, x <> address -> users w' !! x = users w !! x) /\
  (users w' !! address = users w !! address \/
   users w !! address = None /\ users w' !! address = Some 0) /\
  (new_requests w w' = [SelectUser address] \/
   new_requests w w' = [SelectUser address; InsertUser address 0]) /\
  (faults w = [] ->
   fst (Polling.ensureUserExists wallet w) = Returned tt /\
   users w' !! address = Some (totalPoints w address) /\ faults w' = []).
Proof.
  destruct w as [u l r fs]. intros address w'. subst address w'.
  repeat js_step; ensure_leaf.
Qed.

(** [ensureUserExists] throws only what a request threw or the error of a
    refused insert whose code is not 23505, and then no row was created.  A
    duplicate-key answer (23505) to the insert is no error: the function
    returns normally and the table is as it was.  Any other code answered
    to the insert of a missing row is thrown.  When the row exists and the
    look-up is answered, the look-up is the only request. *)
Theorem ensureUserExists_throws_only_a_refused_insert (wallet : string) (w : World) :
  let address := toLowerCase wallet in
  let result := fst (Polling.ensureUserExists wallet w) in
  let w' := snd (Polling.ensureUserExists wallet w) in
  (forall e, result = Threw e ->
     users w' = users w /\ ledger w' = ledger w /\
     (e = TransportError \/
      exists code, e = StoreError code /\ code <> "23505"%string)) /\
  (forall f fs, faults w = f :: Fails "23505" :: fs -> f <> Crashes ->
     result = Returned tt /\ users w' = users w) /\
  (forall code fs,
     users w !! address = None -> faults w = Healthy :: Fails code :: fs ->
     code <> "23505"%string -> result = Threw (StoreError code)) /\
  (forall t,
     users w !! address = Some t ->
     (faults w = [] \/ exists fs, faults w = Healthy :: fs) ->
     result = Returned tt /\ new_requests w w' = [SelectUser address]).
Proof.
  destruct w as [u l r fs]. intros address result w'. subst address result w'.
  split; [|split; [|split]].
  - intros e. repeat js_step_code; try discriminate.
    all: intros [= <-]; split; [reflexivity|]; split; [reflexivity|]; eauto.
  - intros f fs' Hfs Hf. simpl in Hfs. subst fs.
    destruct f; [| |congruence]; repeat js_step_code; try congruence;
      split; reflexivity.
  - intros code fs' Hu Hfs Hcode. simpl in Hu, Hfs. subst fs.
    repeat js_step_code; [contradiction | reflexivity].
  - intros t Hu Hfs. simpl in Hu, Hfs.
    destruct Hfs as [-> | [fs' ->]]; repeat js_step;
      cbv [new_requests requests]; rewrite drop_app_length; split; reflexivity.
Qed.

(** On a store that answers, a second [ensureUserExists] for the same
    address, in whatever case it is written, returns normally, changes
    neither table and sends the look-up only. *)
Theorem ensureUserExists_idempotent (wallet wallet' : string) (w : World) :
  faults w = [] -> toLowerCase wallet' = toLowerCase wallet ->
  let w1 := snd (Polling.ensureUserExists wallet w) in
  let w2 := snd (Polling.ensureUserExists wallet' w1) in
  fst (Polling.ensureUserExists wallet' w1) = Returned tt /\
  users w2 = users w1 /\ ledger w2 = ledger w1 /\
  new_requests w1 w2 = [SelectUser (toLowerCase wallet)].
Proof.
  destruct w as [u l r fs]. simpl. intros -> Hcase.
  unfold Polling.ensureUserExists. rewrite Hcase.
  repeat js_step; cbv [new_requests requests]; rewrite drop_app_length;
    repeat split; reflexivity.
Qed.

Lemma ensureUserExists_idempotent_witness :
  let w1 := snd (Polling.ensureUserExists "0xAb" empty_world) in
  let w2 := snd (Polling.ensureUserExists "0xaB" w1) in
  users w1 !! "0xab"%string = Some 0 /\
  fst (Polling.ensureUserExists "0xaB" w1) = Returned tt /\
  users w2 = users w1 /\ ledger w2 = ledger w1 /\
  new_requests w1 w2 = [SelectUser (toLowerCase "0xAb")].
Proof.
  split; [reflexivity|].
  apply (ensureUserExists_idempotent "0xAb" "0xaB" empty_world); reflexivity.
Defined.

(** ** [awardPoints] around [ensureUserExists] *)

Lemma ensureUserExists_lower wallet :
  Polling.ensureUserExists (toLowerCase wallet) = Polling.ensureUserExists wallet.
Proof. unfold Polling.ensureUserExists. now rewrite toLowerCase_idem. Qed.

Lemma ensureUserExists_threw wallet w e :
  fst (Polling.ensureUserExists wallet w) = Threw e ->
  let w' := snd (Polling.ensureUserExists wallet w) in
  users w' = users w /\ ledger w' = ledger w /\
  (new_requests w w' = [SelectUser (toLowerCase wallet)] \/
   new_requests w w'
   = [SelectUser (toLowerCase wallet); InsertUser (toLowerCase wallet) 0]).
Proof.
  destruct w as [u l r fs]. repeat js_step; try discriminate.
  all: intros _; cbv [new_requests requests];
    rewrite <- ?app_assoc, drop_app_length;
    split; [reflexivity|]; split; [reflexivity|];
    first [left; reflexivity | right; reflexivity].
Qed.

(** In the polling listener, when [ensureUserExists] throws, [awardPoints]
    catches it and returns normally with the award lost: neither table has
    changed and no ledger insert was sent, the only requests being the
    look-up of the user and possibly the refused insert of its row. *)
Theorem award_is_lost_when_user_row_cannot_be_created
    (wallet : string) (points : Z) (src : Source) (md : Metadata) (w : World)
    (e : Thrown) :
  fst (Polling.ensureUserExists wallet w) = Threw e ->
  let w' := snd (Polling.awardPoints wallet points src md w) in
  fst (Polling.awardPoints wallet points src md w) = Returned tt /\
  users w' = users w /\ ledger w' = ledger w /\
  (new_requests w w' = [SelectUser (toLowerCase wallet)] \/
   new_requests w w'
   = [SelectUser (toLowerCase wallet); InsertUser (toLowerCase wallet) 0]).
Proof.
  intros He w'.
  assert (Heq : Polling.awardPoints wallet points src md w
                = (Returned tt, snd (Polling.ensureUserExists wallet w))).
  { unfold Polling.awardPoints, try_catch, bind. cbv zeta.
    rewrite ensureUserExists_lower.
    destruct (Polling.ensureUserExists wallet w) as [o w1].
    simpl in He. subst o. reflexivity. }
  subst w'. rewrite Heq. cbn [fst snd]. split; [reflexivity|].
  exact (ensureUserExists_threw wallet w e He).
Qed.

(** The insert of the user row is refused with code 503. *)
Lemma award_is_lost_witness :
  let w := with_faults [Healthy; Fails "503"] empty_world in
  let w' := snd (Polling.awardPoints "0xAb" 125 bet_volume
                   (Polling.bet_metadata 1 (Number (formatUnits 12500000 6)) "0xt1")
                   w) in
  fst (Polling.awardPoints "0xAb" 125 bet_volume
         (Polling.bet_metadata 1 (Number (formatUnits 12500000 6)) "0xt1") w)
  = Returned tt /\
  users w' = users w /\ ledger w' = ledger w /\
  (new_requests w w' = [SelectUser (toLowerCase "0xAb")] \/
   new_requests w w'
   = [SelectUser (toLowerCase "0xAb"); InsertUser (toLowerCase "0xAb") 0]).
Proof.
  intros w.
  exact (award_is_lost_when_user_row_cannot_be_created "0xAb" 125 bet_volume
           (Polling.bet_metadata 1 (Number (formatUnits 12500000 6)) "0xt1") w
           (StoreError "503") eq_refl).
Defined.

(** On a store that answers, the [awardPoints] of the two listeners leave
    the same two tables, by different requests: for a wallet without a
    row, the polling listener creates the row at zero and then updates it,
    where [src/index.js] inserts it holding the points. *)
Theorem both_awardPoints_agree_on_a_healthy_store
    (wallet : string) (points : Z) (src : Source) (md : Metadata) (w : World) :
  faults w = [] ->
  let polled := snd (Polling.awardPoints wallet points src md w) in
  let watched := snd (Watch.awardPoints wallet points src md w) in
  users polled = users watched /\ ledger polled = ledger watched /\
  (users w !! toLowerCase wallet = None ->
   users polled = <[toLowerCase wallet := points]> (users w) /\
   new_requests w polled
   = [SelectUser (toLowerCase wallet); InsertUser (toLowerCase wallet) 0;
      InsertLedger (ledger_row (toLowerCase wallet) points src md);
      SelectUser (toLowerCase wallet);
      UpdateUser (toLowerCase wallet) (0 + points)] /\
   new_requests w watched
   = [InsertLedger (ledger_row (toLowerCase wallet) points src md);
      SelectUser (toLowerCase wallet); InsertUser (toLowerCase wallet) points]).
Proof.
  destruct w as [u l r fs]. simpl. intros ->.
  repeat js_step; cbv [new_requests requests];
    rewrite <- ?app_assoc, ?drop_app_length, ?insert_insert_eq;
    repeat split; try reflexivity; try discriminate.
Qed.

Lemma both_awardPoints_agree_witness :
  let md := Polling.bet_metadata 1 (Number (formatUnits 12500000 6)) "0xt1" in
  let polled := snd (Polling.awardPoints "0xAb" 125 bet_volume md empty_world) in
  let watched := snd (Watch.awardPoints "0xAb" 125 bet_volume md empty_world) in
  users polled = users watched /\ ledger polled = ledger watched.
Proof.
  intros md.
  pose proof (both_awardPoints_agree_on_a_healthy_store "0xAb" 125 bet_volume md
                empty_world eq_refl) as H.
  exact (conj (proj1 H) (proj1 (proj2 H))).
Defined.

(** ** Numbers *)

(** *** Signs *)

Lemma binary_round_aux_sign prec emax s m e l :
  non_negative (binary_round_aux prec emax s m e l) = negb s
  \/ non_negative (binary_round_aux prec emax s m e l) = true.
Proof.
  unfold binary_round_aux.
  destruct (shr_fexp prec emax m e l) as [mrs' e'].
  destruct (shr_fexp prec emax _ e' loc_Exact) as [mrs'' e''].
  destruct (shr_m mrs''); [right; reflexivity | | right; reflexivity].
  destruct (Z.leb e'' (emax - prec)); left; reflexivity.
Qed.

Lemma non_negative_mul x y :
  non_negative x = true -> non_negative y = true ->
  non_negative (Binary64.mul x y) = true.
Proof.
  unfold Binary64.mul.
  destruct x as [[]|[]| |[] mx ex], y as [[]|[]| |[] my ey]; simpl;
    try reflexivity; try discriminate.
  intros _ _.
  destruct (binary_round_aux_sign Binary64.prec Binary64.emax false
              (Z.pos (mx * my)) (ex + ey) loc_Exact) as [H|H]; exact H.
Qed.

Lemma floor_non_negative x : non_negative x = true -> 0 <= Binary64.floor x.
Proof.
  unfold Binary64.floor.
  destruct x as [s|s| |[] m e]; simpl; try lia; try discriminate.
  intros _. destruct e as [|p|p]; [lia | | ].
  - apply Z.mul_nonneg_nonneg; [lia|]. apply Z.pow_nonneg. lia.
  - apply Z.div_pos; [lia|]. apply Z.pow_pos_nonneg; lia.
Qed.

Lemma Number_non_negative raw d : non_negative (Number (formatUnits raw d)) = true.
Proof.
  unfold Number, formatUnits, Binary64.of_ratio. cbn [Qnum Qden].
  destruct (Z.of_N raw) as [|n|n] eqn:Hraw; [reflexivity | | lia].
  unfold SFdiv.
  destruct (SFdiv_core_binary Binary64.prec Binary64.emax (Z.pos n) 0
              (Z.pos (10 ^ d)) 0) as [[mz ez] lz].
  destruct (binary_round_aux_sign Binary64.prec Binary64.emax (xorb false false)
              mz ez lz) as [H|H]; exact H.
Qed.

(** The points of a bet and the bonus of its win are never negative,
    whatever the raw amount: the amount converts to a Number that is not
    below zero, and neither the products by 10 and by 5 nor [Math.floor]
    change that. *)
Theorem points_are_never_negative (raw : N) :
  0 <= bet_points raw /\ 0 <= win_points raw.
Proof.
  unfold bet_points, win_points. split; apply floor_non_negative.
  - apply non_negative_mul; [apply Number_non_negative | reflexivity].
  - apply non_negative_mul; [|reflexivity].
    apply non_negative_mul; [apply Number_non_negative | reflexivity].
Qed.

(** *** Binary digits *)






(** *** Integers below 2^53 *)





(** *** The amount of a bet is truthy *)








(** ** Any store: the two tables over any number of awards *)






Lemma snd_try_catch_ret (m : M unit) w :
  snd (try_catch m (fun _ => ret tt) w) = snd (m w).
Proof. unfold try_catch, ret. destruct (m w) as [[[]|e] w']; reflexivity. Qed.








Lemma select_latest_bet_any a m w :
  let r := Store.select_latest_bet a m w in
  users (snd r) = users w /\ ledger (snd r) = ledger w /\
  forall md, fst r = Returned (Some md) ->
    Store.latest_bet a m (ledger w) = Some md.
Proof.
  destruct w as [u l r fs]. destruct fs as [|[|code|] fs]; cbn;
    repeat split; try discriminate; now intros md [= ->].
Qed.

Lemma select_single_bet_any a m w :
  let r := Store.select_single_bet a m w in
  users (snd r) = users w /\ ledger (snd r) = ledger w /\
  forall md, fst r = Returned (Some md) ->
    Store.single_bet a m (ledger w) = Some md.
Proof.
  destruct w as [u l r fs]. destruct fs as [|[|code|] fs]; cbn;
    repeat split; try discriminate; now intros md [= ->].
Qed.













(** ** The requests of the polling loop *)





















(** *** Ticks on a store and a chain that answer *)







(** *** Startup *)



(** ** The batches of the subscription listener *)

Lemma for_of_app_returned {A} (h : A -> M unit) l1 l2 : forall w,
  fst (for_of l1 h w) = Returned tt ->
  for_of (l1 ++ l2) h w = for_of l2 h (snd (for_of l1 h w)).
Proof.
  induction l1 as [|x rest IH]; intros w; [reflexivity|].
  simpl. unfold bind. destruct (h x w) as [[[]|e] w1]; simpl.
  - apply IH.
  - discriminate.
Qed.

Lemma for_of_throws {A} (h : A -> M unit) x rest w e :
  fst (h x w) = Threw e -> for_of (x :: rest) h w = (Threw e, snd (h x w)).
Proof.
  simpl. unfold bind. destruct (h x w) as [[[]|e'] w1]; simpl; [discriminate|].
  now intros [= ->].
Qed.

Lemma Watch_handleBetPlaced_returns log w :
  (exists a raw, args log = Some a /\ amount a = Some raw) ->
  fst (Watch.handleBetPlaced log w) = Returned tt.
Proof.
  intros (a & raw & Ha & Hraw). unfold Watch.handleBetPlaced. rewrite Ha.
  destruct a as [m u amt]. simpl in Hraw. subst amt.
  destruct u as [u|]; [apply Watch_awardPoints_returns | reflexivity].
Qed.

Lemma Watch_onBetPlacedLogs_returns logs : forall w,
  Forall (fun log => exists a raw, args log = Some a /\ amount a = Some raw) logs ->
  fst (Watch.onBetPlacedLogs logs w) = Returned tt.
Proof.
  unfold Watch.onBetPlacedLogs.
  induction logs as [|log rest IH]; intros w Hall; [reflexivity|].
  inversion Hall as [|? ? Hlog Hrest]; subst.
  simpl. unfold bind.
  pose proof (Watch_handleBetPlaced_returns log w Hlog) as Hret.
  destruct (Watch.handleBetPlaced log w) as [o w1]. simpl in Hret. subst o.
  now apply IH.
Qed.

(** In [src/index.js] a [BetPlaced] log without [args] or without an amount
    makes the handler throw a TypeError, and its [onLogs] callback stops
    there: the logs before it, which carry an amount, were handled whatever
    the store did, the world is as they left it, and the logs after it in
    the batch are never handled. *)
Theorem watch_bet_batch_stops_at_a_log_without_amount
    (before rest : list RawLog) (bad : RawLog) (w : World) :
  Forall (fun log => exists a raw, args log = Some a /\ amount a = Some raw) before ->
  (args bad = None \/ exists a, args bad = Some a /\ amount a = None) ->
  Watch.onBetPlacedLogs (before ++ bad :: rest) w
  = (Threw TypeError, snd (Watch.onBetPlacedLogs before w)).
Proof.
  intros Hbefore Hbad. unfold Watch.onBetPlacedLogs.
  rewrite for_of_app_returned
    by exact (Watch_onBetPlacedLogs_returns before w Hbefore).
  set (w1 := snd (for_of before Watch.handleBetPlaced w)).
  assert (Hthrow : Watch.handleBetPlaced bad w1 = (Threw TypeError, w1)).
  { unfold Watch.handleBetPlaced.
    destruct Hbad as [-> | (a & -> & Ha)]; [reflexivity|].
    destruct a as [m u amt]. simpl in Ha. now subst amt. }
  rewrite (for_of_throws _ bad rest w1 TypeError); now rewrite Hthrow.
Qed.

(** A log without [args] between two bets of 12.50 USDC: the second bet is
    not ledgered. *)
Lemma watch_bet_batch_witness :
  let good := bet_log 1 "0xAb" 12500000 "0xt1" 6 in
  let bad := {| args := None; transactionHash := "0xt2"; blockNumber := 6 |} in
  map points_earned
    (ledger (snd (Watch.onBetPlacedLogs ([good] ++ bad :: [good]) empty_world)))
  = [125] /\
  Watch.onBetPlacedLogs ([good] ++ bad :: [good]) empty_world
  = (Threw TypeError, snd (Watch.onBetPlacedLogs [good] empty_world)).
Proof.
  intros good bad. split; [reflexivity|].
  apply (watch_bet_batch_stops_at_a_log_without_amount [good] [good] bad empty_world).
  - constructor; [|constructor]. eexists _, _. split; reflexivity.
  - left. reflexivity.
Defined.



(** ** The look-up of [src/index.js] *)


Lemma single_bet_not_one a m l :
  length (List.filter (Store.is_bet_for a m) l) <> 1%nat ->
  Store.single_bet a m l = None.
Proof.
  unfold Store.single_bet.
  destruct (List.filter (Store.is_bet_for a m) l) as [|row [|]]; simpl;
    [reflexivity | congruence | reflexivity].
Qed.

(** In [src/index.js], whatever the store does, a claim whose wallet has no
    [bet_volume] row under that [market_id], or more than one, changes
    neither table: [.single()] gives no row, so no bonus is awarded.  On a
    store that answers the handler returns normally. *)
Theorem watch_win_bonus_needs_exactly_one_bet_row
    (m : N) (u : string) (payout : option N) (tx : string) (blk : N) (w : World) :
  length (List.filter (Store.is_bet_for (toLowerCase u) (Number_of_bigint m))
            (ledger w)) <> 1%nat ->
  let log := {| args := Some {| marketId := m; user := Some u; amount := payout |};
                transactionHash := tx; blockNumber := blk |} in
  let w' := snd (Watch.handleWinningsClaimed log w) in
  users w' = users w /\ ledger w' = ledger w /\
  (faults w = [] -> fst (Watch.handleWinningsClaimed log w) = Returned tt).
Proof.
  intros Hlen log w'. subst log w'. unfold Watch.handleWinningsClaimed.
  cbn [args]. pose proof (single_bet_not_one _ _ _ Hlen) as Hnone.
  destruct w as [us l r fs]. simpl in Hnone.
  destruct fs as [|[|code|] fs];
    cbv beta iota zeta delta
      [Store.select_single_bet bind ret throw request get_ledger
       users ledger requests faults fst snd];
    rewrite ?Hnone; repeat split; try reflexivity; discriminate.
Qed.

(** Two bets of one wallet on market 1, then its claim. *)
Lemma watch_win_bonus_needs_witness :
  let two := snd (Watch.onBetPlacedLogs
                    [bet_log 1 "0xAb" 12500000 "0xt1" 6;
                     bet_log 1 "0xAb" 2500000 "0xt3" 6] empty_world) in
  let w' := snd (Watch.handleWinningsClaimed
                   (win_log 1 "0xAb" 25000000 "0xt2" 7) two) in
  users w' = users two /\ ledger w' = ledger two /\
  (faults two = [] ->
   fst (Watch.handleWinningsClaimed (win_log 1 "0xAb" 25000000 "0xt2" 7) two)
   = Returned tt).
Proof.
  intros two.
  apply (watch_win_bonus_needs_exactly_one_bet_row 1 "0xAb" (Some 25000000%N)
           "0xt2" 7 two).
  vm_compute. discriminate.
Defined.



(** ** A bet and its win *)




(** *** Market 0 *)

Lemma market_zero_row_matches_nothing u p src md a m :
  md_marketId md = Some 0%N ->
  Store.is_bet_for a m (ledger_row u p src md) = false.
Proof.
  intros Hmd. unfold Store.is_bet_for, ledger_row. cbn. rewrite Hmd. cbn.
  now rewrite andb_false_r.
Qed.

Lemma AwardEffect_filter row w w' f :
  AwardEffect row w w' -> f row = false ->
  List.filter f (ledger w') = List.filter f (ledger w).
Proof.
  intros [Hl _|Hl _|Hl _] Hrow; rewrite Hl; [reflexivity| |];
    rewrite List.filter_app; simpl; rewrite Hrow; apply app_nil_r.
Qed.

(** A bet on market 0 is never found again, in either listener and
    whatever the store does: its row is ledgered with a null [market_id]
    ([metadata.marketId || null]), so after it every look-up of a bet, for
    any wallet and market, answers what it answered before.  On a store
    that answers the row is there, its metadata saying market 0. *)
Theorem bet_on_market_zero_is_never_found
    (u : string) (raw : N) (tx : string) (blk : N) (w : World) :
  let log := bet_log 0 u raw tx blk in
  let polled := snd (Polling.handleBetPlaced log w) in
  let watched := snd (Watch.handleBetPlaced log w) in
  (forall a m,
     Store.latest_bet a m (ledger polled) = Store.latest_bet a m (ledger w) /\
     Store.single_bet a m (ledger polled) = Store.single_bet a m (ledger w) /\
     Store.latest_bet a m (ledger watched) = Store.latest_bet a m (ledger w) /\
     Store.single_bet a m (ledger watched) = Store.single_bet a m (ledger w)) /\
  (faults w = [] -> u <> EmptyString -> raw <> 0%N ->
   exists row row',
     ledger polled = ledger w ++ [row] /\ ledger watched = ledger w ++ [row'] /\
     market_id row = None /\ md_marketId (metadata row) = Some 0%N /\
     market_id row' = None /\ md_marketId (metadata row') = Some 0%N).
Proof.
  intros log polled watched.
  assert (Hp : forall a m,
             List.filter (Store.is_bet_for a m) (ledger polled)
             = List.filter (Store.is_bet_for a m) (ledger w)).
  { intros a m. subst polled log. unfold Polling.handleBetPlaced.
    rewrite snd_try_catch_ret.
    destruct (Polling.invalid (bet_log 0 u raw tx blk)); [reflexivity|].
    cbn [args bet_log].
    eapply AwardEffect_filter.
    - exact (proj1 (proj2 (Polling_awardPoints_effect _ _ _ _ w))).
    - now apply market_zero_row_matches_nothing. }
  assert (Hw : forall a m,
             List.filter (Store.is_bet_for a m) (ledger watched)
             = List.filter (Store.is_bet_for a m) (ledger w)).
  { intros a m. subst watched log. unfold Watch.handleBetPlaced.
    cbn [args bet_log].
    eapply AwardEffect_filter.
    - exact (proj1 (proj2 (Watch_awardPoints_effect _ _ _ _ w))).
    - now apply market_zero_row_matches_nothing. }
  split.
  - intros a m. unfold Store.latest_bet, Store.single_bet.
    now rewrite Hp, Hw.
  - intros Hf Hu Hraw.
    destruct (Polling_handleBetPlaced_healthy log w Hf) as (_ & _ & Hl & _).
    destruct (Watch_handleBetPlaced_healthy 0 u raw tx blk w Hf) as (_ & _ & Hl' & _).
    unfold PollingRows.bet_row in Hl. subst log.
    rewrite (invalid_bet_log 0 u raw tx blk Hu Hraw) in Hl.
    cbn [args bet_log transactionHash option_list] in Hl.
    eexists _, _. split; [exact Hl|]. split; [exact Hl'|].
    repeat split; reflexivity.
Qed.

(** ** Addresses *)

Lemma Lowered_same_tables w w' :
  users w' = users w -> ledger w' = ledger w -> Lowered w w'.
Proof. intros Hu Hl. split; intros x; rewrite ?Hu, ?Hl; auto. Qed.

Lemma Lowered_trans w w1 w2 : Lowered w w1 -> Lowered w1 w2 -> Lowered w w2.
Proof.
  intros (Hl1 & Hu1) (Hl2 & Hu2). split.
  - intros row Hin. destruct (Hl2 row Hin) as [H|H]; auto.
  - intros k Hk. destruct (Hu2 k Hk) as [H|H]; auto.
Qed.

Ltac keys_leaf :=
  let k := fresh "k" in
  let Hk := fresh "Hk" in
  cbv [users]; intros k Hk;
  match goal with
  | |- _ \/ ?k = ?a =>
      destruct (String.eqb_spec k a) as [->|Hne];
      [ right; reflexivity
      | left; rewrite ?lookup_insert_ne in Hk by congruence; exact Hk ]
  end.

Lemma Polling_awardPoints_keys wallet points src md w :
  forall k,
    is_Some (users (snd (Polling.awardPoints wallet points src md w)) !! k) ->
    is_Some (users w !! k) \/ k = toLowerCase wallet.
Proof. destruct w as [u l r fs]. repeat js_step; keys_leaf. Qed.

Lemma Watch_awardPoints_keys wallet points src md w :
  forall k,
    is_Some (users (snd (Watch.awardPoints wallet points src md w)) !! k) ->
    is_Some (users w !! k) \/ k = toLowerCase wallet.
Proof. destruct w as [u l r fs]. repeat js_step; keys_leaf. Qed.

Lemma AwardEffect_rows row w w' r :
  AwardEffect row w w' -> In r (ledger w') -> In r (ledger w) \/ r = row.
Proof.
  intros [Hl _|Hl _|Hl _]; rewrite Hl; auto;
    intros [H|[H|[]]]%in_app_or; auto.
Qed.

Lemma Polling_awardPoints_lowered wallet points src md w :
  Lowered w (snd (Polling.awardPoints wallet points src md w)).
Proof.
  split.
  - intros r Hin.
    destruct (AwardEffect_rows _ _ _ r
                (proj1 (proj2 (Polling_awardPoints_effect wallet points src md w))) Hin)
      as [H| ->]; [now left|].
    right. apply toLowerCase_idem.
  - intros k Hk. destruct (Polling_awardPoints_keys _ _ _ _ _ _ Hk) as [H| ->];
      [now left|]. right. apply toLowerCase_idem.
Qed.

Lemma Watch_awardPoints_lowered wallet points src md w :
  Lowered w (snd (Watch.awardPoints wallet points src md w)).
Proof.
  split.
  - intros r Hin.
    destruct (AwardEffect_rows _ _ _ r
                (proj1 (proj2 (Watch_awardPoints_effect wallet points src md w))) Hin)
      as [H| ->]; [now left|].
    right. apply toLowerCase_idem.
  - intros k Hk. destruct (Watch_awardPoints_keys _ _ _ _ _ _ Hk) as [H| ->];
      [now left|]. right. apply toLowerCase_idem.
Qed.


Lemma Lowered_refl w : Lowered w w.
Proof. now apply Lowered_same_tables. Qed.

Lemma Polling_handleBetPlaced_lowered log w :
  Lowered w (snd (Polling.handleBetPlaced log w)).
Proof.
  unfold Polling.handleBetPlaced. rewrite snd_try_catch_ret.
  destruct (Polling.invalid log); [apply Lowered_refl|].
  destruct (args log) as [[m [u|] [raw|]]|]; try apply Lowered_refl.
  apply Polling_awardPoints_lowered.
Qed.

Lemma Watch_handleBetPlaced_lowered log w :
  Lowered w (snd (Watch.handleBetPlaced log w)).
Proof.
  unfold Watch.handleBetPlaced.
  destruct (args log) as [[m [u|] [raw|]]|]; try apply Lowered_refl.
  apply Watch_awardPoints_lowered.
Qed.

Lemma Polling_handleWinningsClaimed_lowered log w :
  Lowered w (snd (Polling.handleWinningsClaimed log w)).
Proof.
  unfold Polling.handleWinningsClaimed. rewrite snd_try_catch_ret.
  destruct (Polling.invalid log); [apply Lowered_refl|].
  destruct (args log) as [[m [u|] [payout|]]|]; try apply Lowered_refl.
  destruct (N.eqb payout 0); [apply Lowered_refl|].
  unfold bind.
  destruct (select_latest_bet_any (toLowerCase u) (Number_of_bigint m) w)
    as (Hu & Hl & _).
  destruct (Store.select_latest_bet (toLowerCase u) (Number_of_bigint m) w)
    as [[betRecord|e] w1]; cbn [fst snd] in *;
    [|now apply Lowered_same_tables].
  assert (H1 : Lowered w w1) by now apply Lowered_same_tables.
  destruct betRecord as [[bid mid [bet|] po tx]|]; try exact H1.
  destruct (truthy_number (Some bet)); [|exact H1].
  exact (Lowered_trans _ _ _ H1 (Polling_awardPoints_lowered _ _ _ _ w1)).
Qed.

Lemma Watch_handleWinningsClaimed_lowered log w :
  Lowered w (snd (Watch.handleWinningsClaimed log w)).
Proof.
  unfold Watch.handleWinningsClaimed.
  destruct (args log) as [[m [u|] payout]|]; try apply Lowered_refl.
  unfold bind.
  destruct (select_single_bet_any (toLowerCase u) (Number_of_bigint m) w)
    as (Hu & Hl & _).
  destruct (Store.select_single_bet (toLowerCase u) (Number_of_bigint m) w)
    as [[betRecord|e] w1]; cbn [fst snd] in *;
    [|now apply Lowered_same_tables].
  assert (H1 : Lowered w w1) by now apply Lowered_same_tables.
  destruct betRecord as [[bid mid [bet|] po tx]|]; try exact H1.
  destruct (truthy_number (Some bet)); [|exact H1].
  destruct payout as [payout|]; [|exact H1].
  exact (Lowered_trans _ _ _ H1 (Watch_awardPoints_lowered _ _ _ _ w1)).
Qed.

Lemma deliver_all_lowered ds : forall w, Lowered w (deliver_all ds w).
Proof.
  induction ds as [|d ds IH]; intros w; [apply Lowered_refl|].
  simpl. refine (Lowered_trans _ _ _ _ (IH _)).
  destruct d; simpl;
    [ apply Polling_handleBetPlaced_lowered
    | apply Polling_handleWinningsClaimed_lowered
    | apply Watch_handleBetPlaced_lowered
    | apply Watch_handleWinningsClaimed_lowered ].
Qed.

(** Whatever the store does and whatever logs the handlers of either
    listener are given, every row they add to the ledger and every
    aggregate row they create is under a lower-cased address; so if every
    address of the two tables was lower-cased, every address still is, and
    a look-up by lower-cased address misses no row. *)
Theorem addresses_are_stored_lower_cased (ds : list Delivery) (w : World) :
  let w' := deliver_all ds w in
  (forall row, In row (ledger w') ->
     In row (ledger w) \/ lower_cased (wallet_address row)) /\
  (forall k, is_Some (users w' !! k) -> is_Some (users w !! k) \/ lower_cased k) /\
  (Forall (fun row => lower_cased (wallet_address row)) (ledger w) ->
   (forall k, is_Some (users w !! k) -> lower_cased k) ->
   Forall (fun row => lower_cased (wallet_address row)) (ledger w') /\
   forall k, is_Some (users w' !! k) -> lower_cased k).
Proof.
  intros w'. destruct (deliver_all_lowered ds w) as (Hl & Hu). fold w' in Hl, Hu.
  split; [exact Hl|]. split; [exact Hu|].
  intros Hl0 Hu0. split.
  - apply List.Forall_forall. intros row Hin.
    destruct (Hl row Hin) as [H|H]; [|exact H].
    exact (proj1 (List.Forall_forall _ _) Hl0 row H).
  - intros k Hk. destruct (Hu k Hk) as [H|H]; auto.
Qed.
